(** * Shallow embedding of build_factory_image.py

    The script assembles a factory flash image: a fixed header, four
    16-byte aligned sections (rootfs, kernel, u-boot, secondary kernel),
    the static metadata-header template, a metadata block carrying a CRC32
    and the section sizes, and the static metadata-footer template.

    Python [bytes] are [list Byte.byte]; Python [int] values are [Z]. *)

From Stdlib Require Import ZArith List String Lia.
Import ListNotations.
Open Scope Z_scope.

Definition bytes := list Byte.byte.

(** [len(b)] as a Python int. *)
Definition Zlen {A} (l : list A) : Z := Z.of_nat (List.length l).

(** The byte with value [z mod 256]. *)
Definition byte_of_Z (z : Z) : Byte.byte :=
  match Byte.of_N (Z.to_N (z mod 256)) with
  | Some b => b
  | None => Byte.x00
  end.

Definition Z_of_byte (b : Byte.byte) : Z := Z.of_N (Byte.to_N b).

(** ** [int.to_bytes(length, byteorder="little")]

    CPython raises [OverflowError] when the (unsigned) value does not fit
    in [length] bytes, negative values included; [None] stands for it. *)
Fixpoint le_digits (len : nat) (n : Z) : bytes :=
  match len with
  | O => []
  | S len' => byte_of_Z n :: le_digits len' (n / 256)
  end.

Definition to_bytes_le (len : nat) (n : Z) : option bytes :=
  if ((0 <=? n) && (n <? 2 ^ (8 * Z.of_nat len)))%bool then Some (le_digits len n)
  else None.

(** Reading a little-endian byte string back as an unsigned integer. *)
Fixpoint le_value (bs : bytes) : Z :=
  match bs with
  | [] => 0
  | b :: bs' => Z_of_byte b + 256 * le_value bs'
  end.

(** ** [@dataclass class Metadata] *)
Record Metadata := mkMetadata {
  crc32_checksum : Z;
  primary_kernel_size : Z;
  squashfs_size : Z;
  uboot_size : Z;
  backup_kernel_size : Z
}.

(** Python [bytes] concatenation inside an expression: the first
    [OverflowError] aborts the whole expression. *)
Definition obind (a : option bytes) (k : bytes -> option bytes) : option bytes :=
  match a with Some x => k x | None => None end.

Notation "'let?' x := a 'in' b" := (obind a (fun x => b))
  (at level 200, x name, a at level 100, b at level 200).

(** [Metadata.pack_metadata]: the operands are evaluated left to right. *)
Definition pack_metadata (self : Metadata) : option bytes :=
  let? c := to_bytes_le 4 (crc32_checksum self) in
  let? pk := to_bytes_le 4 (primary_kernel_size self) in
  let? sq := to_bytes_le 4 (squashfs_size self) in
  let? ub := to_bytes_le 4 (uboot_size self) in
  let? bk := to_bytes_le 4 (backup_kernel_size self + 40) in
  let? two := to_bytes_le 4 (Z.of_nat 2) in
  Some (c ++ pk ++ sq ++ ub
        ++ [Byte.x00; Byte.x00; Byte.x00; Byte.x00]
        ++ [Byte.x00; Byte.x00; Byte.x00; Byte.x00]
        ++ [Byte.x00; Byte.x00; Byte.x00; Byte.x00]
        ++ [Byte.x07; Byte.x00; Byte.x00; Byte.x00]
        ++ bk
        ++ two
        ++ [Byte.x70; Byte.x05; Byte.x00; Byte.x00]).

(** ** [zlib.crc32(data)] (library code, default start value 0)

    The reflected CRC-32 of ISO 3309 / zlib: register preset to all ones,
    polynomial 0xEDB88320 processed LSB first, result complemented. zlib
    computes the same function with a lookup table. *)
Definition crc32_poly : Z := 3988292384. (* 0xEDB88320 *)
Definition mask32 : Z := 4294967295.     (* 0xFFFFFFFF *)

Fixpoint crc32_shift (k : nat) (c : Z) : Z :=
  match k with
  | O => c
  | S k' =>
      crc32_shift k'
        (if Z.testbit c 0 then Z.lxor (Z.shiftr c 1) crc32_poly
         else Z.shiftr c 1)
  end.

Definition crc32_update (c : Z) (b : Byte.byte) : Z :=
  crc32_shift 8 (Z.lxor c (Z_of_byte b)).

Definition crc32 (data : bytes) : Z :=
  Z.lxor (fold_left crc32_update data mask32) mask32.

(** ** [append_data(original, data, alignment)]

    [b"\x00" * k] is empty for [k <= 0], which [Z.to_nat] reproduces; the
    program only calls it with [alignment = 16], where Python's [%] and
    [Z.modulo] agree. *)
Definition append_data (original data : bytes) (alignment : Z) : bytes * Z :=
  let data :=
    data ++ repeat Byte.x00
              (Z.to_nat (alignment - ((Zlen original + Zlen data) mod alignment))) in
  (original ++ data, Zlen data).

Example crc32_check_value :
  crc32 (map byte_of_Z [49; 50; 51; 52; 53; 54; 55; 56; 57]) = 3421780262.
Proof. vm_compute. reflexivity. Qed.

(** ** The pure part of [main]

    [sections] performs lines 86-91 (four [append_data] calls, then the
    metadata-header template); it returns the buffer and the four padded
    lengths [(rootfs_len, kernel_len, uboot_len, ramdisk_len)]. *)
Definition alignment : Z := 16.

Definition sections (header_data uboot_data metadata_header_data
                     kernel_data rootfs_data ramdisk_data : bytes)
  : bytes * (Z * Z * Z * Z) :=
  let final_data := header_data in
  let '(final_data, rootfs_len) := append_data final_data rootfs_data alignment in
  let '(final_data, kernel_len) := append_data final_data kernel_data alignment in
  let '(final_data, uboot_len) := append_data final_data uboot_data alignment in
  let '(final_data, ramdisk_len) := append_data final_data ramdisk_data alignment in
  let final_data := final_data ++ metadata_header_data in
  (final_data, (rootfs_len, kernel_len, uboot_len, ramdisk_len)).

(** Lines 98-106: the checksum over [final_data[32:]] and the record. *)
Definition metadata_of (final_data : bytes) (lens : Z * Z * Z * Z) : Metadata :=
  let '(rootfs_len, kernel_len, uboot_len, ramdisk_len) := lens in
  let crc := crc32 (skipn 32 final_data) in
  {| crc32_checksum := crc;
     primary_kernel_size := kernel_len;
     squashfs_size := rootfs_len;
     uboot_size := uboot_len;
     backup_kernel_size := ramdisk_len |}.

(** Lines 86-109: the complete image, or [None] when [pack_metadata]
    raises [OverflowError]. *)
Definition build_image (header_data uboot_data metadata_header_data
                        metadata_footer_data kernel_data rootfs_data
                        ramdisk_data : bytes) : option bytes :=
  let '(final_data, lens) :=
    sections header_data uboot_data metadata_header_data
             kernel_data rootfs_data ramdisk_data in
  let metadata := metadata_of final_data lens in
  let? packed := pack_metadata metadata in
  Some (final_data ++ packed ++ metadata_footer_data).

(** ** Files, arguments and the run of the script *)

(** The file system as seen by the script: [None] is a path that cannot be
    opened (missing or unreadable). *)
Definition fsys := string -> option bytes.

Definition fs_write (fs : fsys) (p : string) (data : bytes) : fsys :=
  fun q => if String.eqb q p then Some data else fs q.

(** Observable actions, in order. *)
Inductive event :=
  | EOpenRead (p : string)   (* open(p, "rb") attempted *)
  | EArgError                (* argparse reports a missing argument *)
  | EOpenWrite (p : string). (* open(p, "wb") attempted *)

Inductive exc :=
  | FileNotFoundError (p : string)
  | ArgumentError
  | OverflowError
  | OSError (p : string).

(** What the operating system makes of [open(p, "wb")] followed by
    [f.write(data)]: the write completes, [open] raises (missing
    directory, no permission) and nothing changes, or [open] creates or
    truncates the file and the write raises (disk full) after [n] bytes. *)
Inductive write_outcome :=
  | WriteOk
  | OpenFails
  | WriteFails (n : nat).

(** The files, the actions so far, and the operating system's answer to a
    write of [data] to [p] given the current files. *)
Record world := mkWorld {
  files : fsys;
  trace : list event;
  os_write : fsys -> string -> bytes -> write_outcome
}.

(** A state and exception monad over [world]. *)
Definition M (A : Type) := world -> (exc + A) * world.

Definition ret {A} (a : A) : M A := fun w => (inr a, w).
Definition bind {A B} (m : M A) (k : A -> M B) : M B :=
  fun w => match m w with
           | (inl e, w') => (inl e, w')
           | (inr a, w') => k a w'
           end.
Definition raise {A} (e : exc) : M A := fun w => (inl e, w).
Definition emit (ev : event) : M unit :=
  fun w => (inr tt, mkWorld (files w) (trace w ++ [ev]) (os_write w)).

Notation "x <- m ;; k" := (bind m (fun x => k))
  (at level 61, m at next level, right associativity).
Notation "m ;; k" := (bind m (fun _ => k))
  (at level 61, right associativity).
Notation "' p <- m ;; k" := (bind m (fun x => match x with p => k end))
  (at level 61, p pattern, m at next level, right associativity).

(** [load_binary(path)] *)
Definition load_binary (path : string) : M bytes :=
  emit (EOpenRead path) ;;
  fun w => match files w path with
           | Some b => (inr b, w)
           | None => (inl (FileNotFoundError path), w)
           end.

(** [with open(path, "wb") as f: f.write(data)] *)
Definition write_file (path : string) (data : bytes) : M unit :=
  emit (EOpenWrite path) ;;
  fun w => match os_write w (files w) path data with
           | WriteOk =>
               (inr tt, mkWorld (fs_write (files w) path data) (trace w) (os_write w))
           | OpenFails => (inl (OSError path), w)
           | WriteFails n =>
               (inl (OSError path),
                mkWorld (fs_write (files w) path (firstn n data)) (trace w) (os_write w))
           end.

(** The command line, already split by argparse into its options; [None]
    is an option that was not given. *)
Record cmdline := mkCmdline {
  cl_output : option string;
  cl_kernel : option string;
  cl_rootfs : option string;
  cl_ramdisk : option string
}.

Record Args := mkArgs {
  output : string;
  kernel : string;
  rootfs : string;
  ramdisk : option string
}.

(** [parse_args()]: [output], [--kernel] and [--rootfs] are required. *)
Definition parse_args (cl : cmdline) : M Args :=
  match cl_output cl, cl_kernel cl, cl_rootfs cl with
  | Some o, Some k, Some r => ret (mkArgs o k r (cl_ramdisk cl))
  | _, _, _ => emit EArgError ;; raise ArgumentError
  end.

(** Python truthiness of [args.ramdisk]: [None] and [""] are false. *)
Definition truthy (s : option string) : option string :=
  match s with
  | Some p => if String.eqb p "" then None else Some p
  | None => None
  end.

(** [load_user_data(args)] *)
Definition load_user_data (args : Args) : M (bytes * bytes * bytes) :=
  kernel_data <- load_binary (kernel args) ;;
  rootfs_data <- load_binary (rootfs args) ;;
  ramdisk_data <- match truthy (ramdisk args) with
                  | Some p => load_binary p
                  | None => ret kernel_data
                  end ;;
  ret (kernel_data, rootfs_data, ramdisk_data).

Definition header_path : string := "static/header.bin".
Definition uboot_path : string := "static/uboot.bin".
Definition metadata_header_path : string := "static/metadata_header.bin".
Definition metadata_footer_path : string := "static/metadata_footer.bin".

(** [main()], given the four module-level blobs. The console output of
    lines 93-96 is informational and not modelled. *)
Definition main (header_data uboot_data metadata_header_data
                 metadata_footer_data : bytes) (cl : cmdline) : M unit :=
  args <- parse_args cl ;;
  '(kernel_data, rootfs_data, ramdisk_data) <- load_user_data args ;;
  match build_image header_data uboot_data metadata_header_data
                    metadata_footer_data kernel_data rootfs_data ramdisk_data with
  | Some final_data => write_file (output args) final_data
  | None => raise OverflowError
  end.

(** Running the script: the module-level loads of lines 45-48 happen at
    import time, then [main()] runs. *)
Definition run_script (cl : cmdline) : M unit :=
  header_data <- load_binary header_path ;;
  uboot_data <- load_binary uboot_path ;;
  metadata_header_data <- load_binary metadata_header_path ;;
  metadata_footer_data <- load_binary metadata_footer_path ;;
  main header_data uboot_data metadata_header_data metadata_footer_data cl.

(** ** Auxiliary definitions for the statements *)

(** The [i]-th little-endian 32-bit word of a byte string. *)
Definition word (i : nat) (bs : bytes) : Z :=
  le_value (firstn 4 (skipn (4 * i) bs)).

Definition in_u32 (n : Z) : Prop := 0 <= n < 2 ^ 32.

(** The values [pack_metadata] encodes with [to_bytes(4, ...)]. *)
Definition fields_in_range (md : Metadata) : Prop :=
  in_u32 (crc32_checksum md) /\ in_u32 (primary_kernel_size md) /\
  in_u32 (squashfs_size md) /\ in_u32 (uboot_size md) /\
  in_u32 (backup_kernel_size md + 40).

Definition all_zero (l : bytes) : Prop := Forall (eq Byte.x00) l.

Definition static_paths : list string :=
  [header_path; uboot_path; metadata_header_path; metadata_footer_path].

(** The caller-supplied paths [load_user_data] opens, in order. *)
Definition user_paths (args : Args) : list string :=
  [kernel args; rootfs args] ++
  match truthy (ramdisk args) with Some p => [p] | None => [] end.

(** The arguments [parse_args] returns when it does not fail. *)
Definition cmdline_args (cl : cmdline) : option Args :=
  match cl_output cl, cl_kernel cl, cl_rootfs cl with
  | Some o, Some k, Some r => Some (mkArgs o k r (cl_ramdisk cl))
  | _, _, _ => None
  end.

(** Some input the run would read cannot be opened. *)
Definition missing_input (cl : cmdline) (w : world) : Prop :=
  (exists p, In p static_paths /\ files w p = None) \/
  (exists args, cmdline_args cl = Some args /\
     exists p, In p (user_paths args) /\ files w p = None).

(** What is known about the world when the run raises [e]. *)
Definition failure_reason (cl : cmdline) (w : world) (e : exc) : Prop :=
  match e with
  | FileNotFoundError p => files w p = None
  | ArgumentError =>
      cmdline_args cl = None /\ Forall (fun p => files w p <> None) static_paths
  | OverflowError =>
      exists args, cmdline_args cl = Some args /\
        Forall (fun p => files w p <> None) (static_paths ++ user_paths args)
  | OSError p =>
      exists args, cmdline_args cl = Some args /\ p = output args /\
        Forall (fun p => files w p <> None) (static_paths ++ user_paths args)
  end.

(** The result and the files after [write_file path data], for the
    operating system's answer [o], from the files [fs]. *)
Definition write_effect (o : write_outcome) (fs : fsys) (path : string)
                        (data : bytes) : (exc + unit) * fsys :=
  match o with
  | WriteOk => (inr tt, fs_write fs path data)
  | OpenFails => (inl (OSError path), fs)
  | WriteFails n => (inl (OSError path), fs_write fs path (firstn n data))
  end.

(** The image [main] builds from the files of [w] for [args], when every
    input it reads can be opened and the packed fields fit. *)
Definition image_of (w : world) (args : Args) : option bytes :=
  match files w header_path, files w uboot_path, files w metadata_header_path,
        files w metadata_footer_path, files w (kernel args), files w (rootfs args) with
  | Some hdr, Some ubd, Some mhd, Some mfd, Some kd, Some rfd =>
      match match truthy (ramdisk args) with
            | Some p => files w p
            | None => Some kd
            end with
      | Some rdd => build_image hdr ubd mhd mfd kd rfd rdd
      | None => None
      end
  | _, _, _, _, _, _ => None
  end.

(** Where the secondary kernel's bytes come from. *)
Definition secondary_source (w : world) (args : Args) (kd rdd : bytes) : Prop :=
  match truthy (ramdisk args) with
  | Some p => files w p = Some rdd
  | None => rdd = kd
  end.

(** ** Helper lemmas *)

Lemma Z_of_byte_of_Z (z : Z) : Z_of_byte (byte_of_Z z) = z mod 256.
Proof.
  unfold Z_of_byte, byte_of_Z.
  assert (Hr : 0 <= z mod 256 < 256) by (apply Z.mod_pos_bound; lia).
  destruct (Byte.of_N (Z.to_N (z mod 256))) as [b|] eqn:E.
  - apply Byte.to_of_N in E. rewrite E. apply Z2N.id. lia.
  - apply Byte.of_N_None_iff in E. lia.
Qed.

Lemma le_digits_length (len : nat) (n : Z) : List.length (le_digits len n) = len.
Proof. revert n; induction len; intro n; simpl; auto. Qed.

Lemma le_value_digits (len : nat) (n : Z) :
  0 <= n < 2 ^ (8 * Z.of_nat len) -> le_value (le_digits len n) = n.
Proof.
  revert n; induction len as [|len IH]; intros n Hn; cbn [le_digits le_value].
  - simpl in Hn. lia.
  - rewrite Z_of_byte_of_Z, IH.
    + pose proof (Z.div_mod n 256 ltac:(lia)). lia.
    + split; [apply Z.div_pos; lia|].
      apply Z.div_lt_upper_bound; [lia|].
      replace (8 * Z.of_nat (S len)) with (8 + 8 * Z.of_nat len) in Hn by lia.
      rewrite Z.pow_add_r in Hn by lia. lia.
Qed.

Lemma to_bytes_le_4 (n : Z) :
  to_bytes_le 4 n = if ((0 <=? n) && (n <? 2 ^ 32))%bool
                    then Some (le_digits 4 n) else None.
Proof. reflexivity. Qed.

Lemma to_bytes_le_4_Some (n : Z) (bs : bytes) :
  to_bytes_le 4 n = Some bs ->
  in_u32 n /\ List.length bs = 4%nat /\ le_value bs = n.
Proof.
  rewrite to_bytes_le_4. unfold in_u32.
  destruct (0 <=? n) eqn:E1, (n <? 2 ^ 32) eqn:E2; cbn [andb]; intro H;
    try discriminate.
  assert (Hb : bs = le_digits 4 n) by congruence. subst bs.
  apply Z.leb_le in E1. apply Z.ltb_lt in E2.
  split; [lia|]. split; [apply le_digits_length|].
  apply le_value_digits. simpl. lia.
Qed.

Lemma to_bytes_le_4_None (n : Z) : to_bytes_le 4 n = None <-> ~ in_u32 n.
Proof.
  rewrite to_bytes_le_4. unfold in_u32.
  destruct (0 <=? n) eqn:E1, (n <? 2 ^ 32) eqn:E2; cbn [andb];
    [apply Z.leb_le in E1; apply Z.ltb_lt in E2
    |apply Z.leb_le in E1; apply Z.ltb_ge in E2
    |apply Z.leb_gt in E1; apply Z.ltb_lt in E2
    |apply Z.leb_gt in E1; apply Z.ltb_ge in E2];
    (split; intro H; [try discriminate; lia | try reflexivity]).
  exfalso. apply H. lia.
Qed.

Lemma length_4 {A} (l : list A) :
  List.length l = 4%nat -> exists a b c d, l = [a; b; c; d].
Proof.
  destruct l as [|a [|b [|c [|d [|e l]]]]]; simpl; intro H; try discriminate.
  exists a, b, c, d. reflexivity.
Qed.

(** Inversion of [pack_metadata]: a successful result is the eleven words
    [crc, pk, sq, ub, 0, 0, 0, 7, bk + 40, 2, 0x570]. *)
Lemma pack_metadata_Some (md : Metadata) (bs : bytes) :
  pack_metadata md = Some bs ->
  fields_in_range md /\ List.length bs = 44%nat /\
  map (fun i => word i bs) (seq 0 11) =
    [crc32_checksum md; primary_kernel_size md; squashfs_size md;
     uboot_size md; 0; 0; 0; 7; backup_kernel_size md + 40; 2; 1392].
Proof.
  unfold pack_metadata, obind.
  destruct (to_bytes_le 4 (crc32_checksum md)) as [c|] eqn:Ec; [|discriminate].
  destruct (to_bytes_le 4 (primary_kernel_size md)) as [pk|] eqn:Epk; [|discriminate].
  destruct (to_bytes_le 4 (squashfs_size md)) as [sq|] eqn:Esq; [|discriminate].
  destruct (to_bytes_le 4 (uboot_size md)) as [ub|] eqn:Eub; [|discriminate].
  destruct (to_bytes_le 4 (backup_kernel_size md + 40)) as [bk|] eqn:Ebk; [|discriminate].
  simpl. intro H. injection H as <-.
  apply to_bytes_le_4_Some in Ec, Epk, Esq, Eub, Ebk.
  assert (Rng : fields_in_range md) by (unfold fields_in_range; tauto).
  destruct Ec as (_ & Lc & Vc), Epk as (_ & Lpk & Vpk), Esq as (_ & Lsq & Vsq),
           Eub as (_ & Lub & Vub), Ebk as (_ & Lbk & Vbk).
  apply length_4 in Lc, Lpk, Lsq, Lub, Lbk.
  destruct Lc as (c0 & c1 & c2 & c3 & ->), Lpk as (p0 & p1 & p2 & p3 & ->),
           Lsq as (s0 & s1 & s2 & s3 & ->), Lub as (u0 & u1 & u2 & u3 & ->),
           Lbk as (b0 & b1 & b2 & b3 & ->).
  split; [exact Rng|]. split; [reflexivity|].
  simpl. unfold word; simpl. rewrite <- Vc, <- Vpk, <- Vsq, <- Vub, <- Vbk.
  simpl. reflexivity.
Qed.

(** Range conditions make [pack_metadata] succeed. *)
Lemma pack_metadata_None (md : Metadata) :
  pack_metadata md = None <-> ~ fields_in_range md.
Proof.
  unfold pack_metadata, obind, fields_in_range.
  destruct (to_bytes_le 4 (crc32_checksum md)) eqn:Ec;
  [|apply to_bytes_le_4_None in Ec; tauto].
  destruct (to_bytes_le 4 (primary_kernel_size md)) eqn:Epk;
  [|apply to_bytes_le_4_None in Epk; tauto].
  destruct (to_bytes_le 4 (squashfs_size md)) eqn:Esq;
  [|apply to_bytes_le_4_None in Esq; tauto].
  destruct (to_bytes_le 4 (uboot_size md)) eqn:Eub;
  [|apply to_bytes_le_4_None in Eub; tauto].
  destruct (to_bytes_le 4 (backup_kernel_size md + 40)) eqn:Ebk;
  [|apply to_bytes_le_4_None in Ebk; tauto].
  apply to_bytes_le_4_Some in Ec, Epk, Esq, Eub, Ebk.
  simpl. split; [discriminate|]. intro H. exfalso. apply H. tauto.
Qed.

Lemma Zlen_app {A} (l1 l2 : list A) : Zlen (l1 ++ l2) = Zlen l1 + Zlen l2.
Proof. unfold Zlen. rewrite length_app. lia. Qed.

Lemma Zlen_repeat {A} (x : A) (k : nat) : Zlen (repeat x k) = Z.of_nat k.
Proof. unfold Zlen. rewrite repeat_length. reflexivity. Qed.

Lemma all_zero_repeat (k : nat) : all_zero (repeat Byte.x00 k).
Proof.
  unfold all_zero. apply Forall_forall. intros x Hx.
  apply repeat_spec in Hx. congruence.
Qed.

Lemma skipn_length_app {A} (l1 l2 : list A) : skipn (List.length l1) (l1 ++ l2) = l2.
Proof. induction l1; simpl; auto. Qed.

Lemma firstn_length_app {A} (l1 l2 : list A) : firstn (List.length l1) (l1 ++ l2) = l1.
Proof. induction l1; simpl; f_equal; auto. Qed.

Lemma skipn_length_app2 {A} (l1 l2 l3 : list A) :
  skipn (List.length l1 + List.length l2) (l1 ++ l2 ++ l3) = l3.
Proof.
  rewrite app_assoc, <- length_app. apply skipn_length_app.
Qed.

(** [append_data] with the program's alignment, written out. *)
Lemma append_data_16_eq (original data : bytes) :
  let P := 16 - ((Zlen original + Zlen data) mod 16) in
  1 <= P <= 16 /\
  append_data original data 16 =
    (original ++ data ++ repeat Byte.x00 (Z.to_nat P), Zlen data + P).
Proof.
  intro P.
  assert (HP : 1 <= P <= 16).
  { subst P. pose proof (Z.mod_pos_bound (Zlen original + Zlen data) 16). lia. }
  split; [exact HP|].
  unfold append_data. fold P.
  rewrite Zlen_app, Zlen_repeat, Z2Nat.id by lia. reflexivity.
Qed.

(** The buffer after the four appends and the template, with the padding
    of each section named. *)
Lemma sections_shape (header_data uboot_data metadata_header_data
                      kernel_data rootfs_data ramdisk_data : bytes) :
  exists pR pK pU pS,
    all_zero pR /\ all_zero pK /\ all_zero pU /\ all_zero pS /\
    sections header_data uboot_data metadata_header_data
             kernel_data rootfs_data ramdisk_data =
    (header_data ++ (rootfs_data ++ pR) ++ (kernel_data ++ pK)
       ++ (uboot_data ++ pU) ++ (ramdisk_data ++ pS) ++ metadata_header_data,
     (Zlen (rootfs_data ++ pR), Zlen (kernel_data ++ pK),
      Zlen (uboot_data ++ pU), Zlen (ramdisk_data ++ pS))).
Proof.
  unfold sections, append_data, alignment.
  eexists _, _, _, _.
  split; [apply all_zero_repeat|]. split; [apply all_zero_repeat|].
  split; [apply all_zero_repeat|]. split; [apply all_zero_repeat|].
  rewrite <- !app_assoc. reflexivity.
Qed.

(** [build_image] succeeds with the packed record between the buffer and
    the footer. *)
Lemma build_image_Some (header_data uboot_data metadata_header_data
                        metadata_footer_data kernel_data rootfs_data
                        ramdisk_data img : bytes) :
  build_image header_data uboot_data metadata_header_data metadata_footer_data
              kernel_data rootfs_data ramdisk_data = Some img ->
  let '(final_data, lens) :=
    sections header_data uboot_data metadata_header_data
             kernel_data rootfs_data ramdisk_data in
  exists packed,
    pack_metadata (metadata_of final_data lens) = Some packed /\
    img = final_data ++ packed ++ metadata_footer_data.
Proof.
  unfold build_image.
  destruct (sections _ _ _ _ _ _) as [final_data lens].
  unfold obind. destruct (pack_metadata _) as [packed|]; [|discriminate].
  intro H. injection H as <-. eauto.
Qed.


(** ** Concrete inputs: the round-trip scenario of the specification
    (32 zero header bytes, 17 x 0xAA rootfs, 16 x 0xBB kernel, one 0xCC
    u-boot byte), with one-byte metadata templates. *)
Definition ex_header : bytes := repeat Byte.x00 32.
Definition ex_rootfs : bytes := repeat Byte.xaa 17.
Definition ex_kernel : bytes := repeat Byte.xbb 16.
Definition ex_uboot : bytes := [Byte.xcc].
Definition ex_mheader : bytes := [Byte.x01].
Definition ex_mfooter : bytes := [Byte.x02].

Definition ex_image : bytes :=
  Eval vm_compute in
  match build_image ex_header ex_uboot ex_mheader ex_mfooter
                    ex_kernel ex_rootfs ex_kernel with
  | Some img => img
  | None => []
  end.

Example ex_sizes :
  snd (sections ex_header ex_uboot ex_mheader ex_kernel ex_rootfs ex_kernel)
  = (32, 32, 16, 32).
Proof. vm_compute. reflexivity. Qed.

Example ex_image_length : List.length ex_image = 190%nat.
Proof. vm_compute. reflexivity. Qed.

Definition ex_files : fsys :=
  fun p =>
    if String.eqb p header_path then Some ex_header
    else if String.eqb p uboot_path then Some ex_uboot
    else if String.eqb p metadata_header_path then Some ex_mheader
    else if String.eqb p metadata_footer_path then Some ex_mfooter
    else if String.eqb p "kernel.bin"%string then Some ex_kernel
    else if String.eqb p "rootfs.bin"%string then Some ex_rootfs
    else None.

(** An operating system that lets every write complete. *)
Definition ex_world : world := mkWorld ex_files [] (fun _ _ _ => WriteOk).

(** The same files on a disk that fills up after 100 bytes. *)
Definition ex_world_full : world := mkWorld ex_files [] (fun _ _ _ => WriteFails 100).

(** [build_factory_image.py out.bin -k kernel.bin -r rootfs.bin] *)
Definition ex_cmdline : cmdline :=
  mkCmdline (Some "out.bin"%string) (Some "kernel.bin"%string) (Some "rootfs.bin"%string) None.

(** [build_factory_image.py out.bin -r rootfs.bin] *)
Definition ex_cmdline_no_kernel : cmdline :=
  mkCmdline (Some "out.bin"%string) None (Some "rootfs.bin"%string) None.

(** [build_factory_image.py -k kernel.bin -r rootfs.bin]: no output path. *)
Definition ex_cmdline_no_output : cmdline :=
  mkCmdline None (Some "kernel.bin"%string) (Some "rootfs.bin"%string) None.

(** The arguments [parse_args] returns for [ex_cmdline]. *)
Definition ex_args : Args := mkArgs "out.bin" "kernel.bin" "rootfs.bin" None.

(** A metadata record with in-range fields and its packed bytes. *)
Definition ex_md : Metadata := mkMetadata 305419896 16 32 16 32.

Definition ex_md_bytes : bytes :=
  Eval vm_compute in
  match pack_metadata ex_md with Some b => b | None => [] end.

Example ex_run_writes_image :
  fst (run_script ex_cmdline ex_world) = inr tt /\
  files (snd (run_script ex_cmdline ex_world)) "out.bin"%string = Some ex_image.
Proof. split; vm_compute; reflexivity. Qed.

(** * Claims *)

(** ** C1: layout of the metadata block *)

(** C1 (counterexample): the record packed by [pack_metadata] is not 32
    bytes long; for the all-zero record it has 44 bytes. *)
Lemma pack_metadata_not_32_bytes :
  match pack_metadata (mkMetadata 0 0 0 0 0) with
  | Some bs => List.length bs = 44%nat /\ List.length bs <> 32%nat
  | None => False
  end.
Proof. vm_compute. split; [reflexivity | discriminate]. Qed.

(** C1 (amended): for a record whose encoded values fit in 32 bits,
    [pack_metadata] produces 44 bytes, read as eleven little-endian 32-bit
    words: crc32_checksum, primary_kernel_size, squashfs_size, uboot_size,
    three zero words, 7, backup_kernel_size + 40, 2 and 0x570. *)
Theorem pack_metadata_layout (md : Metadata) :
  fields_in_range md ->
  exists bs,
    pack_metadata md = Some bs /\ List.length bs = 44%nat /\
    map (fun i => word i bs) (seq 0 11) =
      [crc32_checksum md; primary_kernel_size md; squashfs_size md;
       uboot_size md; 0; 0; 0; 7; backup_kernel_size md + 40; 2; 1392].
Proof.
  intro Hr.
  destruct (pack_metadata md) as [bs|] eqn:E.
  - apply pack_metadata_Some in E. destruct E as (_ & L & W). eauto.
  - apply pack_metadata_None in E. contradiction.
Qed.

Lemma pack_metadata_layout_witness :
  fields_in_range (mkMetadata 3421780262 32 32 16 32) /\
  exists bs,
    pack_metadata (mkMetadata 3421780262 32 32 16 32) = Some bs /\
    List.length bs = 44%nat /\
    map (fun i => word i bs) (seq 0 11) =
      [3421780262; 32; 32; 16; 0; 0; 0; 7; 72; 2; 1392].
Proof.
  split.
  - unfold fields_in_range, in_u32; simpl; lia.
  - apply (pack_metadata_layout (mkMetadata 3421780262 32 32 16 32)).
    unfold fields_in_range, in_u32; simpl; lia.
Defined.

(** ** C10: when [pack_metadata] raises *)

(** C10 (counterexample): a negative backup_kernel_size does not make
    [pack_metadata] raise: with backup_kernel_size = -1 the encoded value
    is 39 and packing succeeds. *)
Lemma pack_metadata_negative_backup :
  backup_kernel_size (mkMetadata 0 0 0 0 (-1)) < 0 /\
  pack_metadata (mkMetadata 0 0 0 0 (-1)) <> None.
Proof. split; [simpl; lia | vm_compute; discriminate]. Qed.

(** C10 (amended): [pack_metadata] raises exactly when crc32_checksum,
    primary_kernel_size, squashfs_size or uboot_size lies outside
    [0, 2^32), or backup_kernel_size + 40 lies outside [0, 2^32); when it
    succeeds, its result has 44 bytes and each integer field is one
    little-endian 4-byte word. *)
Theorem pack_metadata_raises_iff (md : Metadata) :
  match pack_metadata md with
  | None => ~ fields_in_range md
  | Some bs =>
      fields_in_range md /\ List.length bs = 44%nat /\
      word 0 bs = crc32_checksum md /\ word 1 bs = primary_kernel_size md /\
      word 2 bs = squashfs_size md /\ word 3 bs = uboot_size md /\
      word 8 bs = backup_kernel_size md + 40
  end.
Proof.
  destruct (pack_metadata md) as [bs|] eqn:E.
  - apply pack_metadata_Some in E. destruct E as (R & L & W).
    simpl in W. injection W as W0 W1 W2 W3 _ _ _ _ W8 _ _.
    repeat split; assumption || apply R.
  - apply pack_metadata_None in E. exact E.
Qed.

(** ** C4: the section appender *)

(** C4: with alignment 16, [append_data O S] appends [S] followed by
    [P = 16 - ((len O + len S) mod 16)] zero bytes and returns the padded
    length [len S + P]; when [len O + len S] is already a multiple of 16,
    [P] is a full block of 16. *)
Theorem append_data_padding (O S : bytes) :
  let P := 16 - ((Zlen O + Zlen S) mod 16) in
  append_data O S 16 = (O ++ S ++ repeat Byte.x00 (Z.to_nat P), Zlen S + P) /\
  ((Zlen O + Zlen S) mod 16 = 0 -> P = 16).
Proof.
  intro P. destruct (append_data_16_eq O S) as [_ E]. fold P in E.
  split; [exact E|]. intro H0. subst P. rewrite H0. reflexivity.
Qed.

(** ** C6: alignment of the appender's results *)

(** C6 (counterexample): after a one-byte buffer, an empty section gets a
    padded length of 15, not a multiple of 16. *)
Lemma padded_length_unaligned :
  snd (append_data [Byte.x00] [] 16) = 15 /\
  snd (append_data [Byte.x00] [] 16) mod 16 <> 0.
Proof. vm_compute. split; [reflexivity | discriminate]. Qed.

(** C6 (amended): for every buffer [O] and section [S], the appender adds
    between 1 and 16 zero bytes, the new buffer's length is a multiple of
    16, and the returned padded length is a multiple of 16 exactly when
    [len O] is. *)
Theorem append_data_alignment (O S : bytes) :
  let '(O', n) := append_data O S 16 in
  1 <= n - Zlen S <= 16 /\
  Zlen O' = Zlen O + n /\
  Zlen O' mod 16 = 0 /\
  (n mod 16 = 0 <-> Zlen O mod 16 = 0).
Proof.
  destruct (append_data_16_eq O S) as [HP E]. rewrite E.
  set (P := 16 - ((Zlen O + Zlen S) mod 16)) in *.
  rewrite !Zlen_app, Zlen_repeat, Z2Nat.id by lia.
  assert (Ht : (Zlen O + (Zlen S + P)) mod 16 = 0).
  { subst P.
    replace (Zlen O + (Zlen S + (16 - (Zlen O + Zlen S) mod 16)))
      with ((Zlen O + Zlen S) - (Zlen O + Zlen S) mod 16 + 1 * 16) by lia.
    rewrite Z.mod_add by lia.
    pose proof (Z.div_mod (Zlen O + Zlen S) 16 ltac:(lia)).
    replace (Zlen O + Zlen S - (Zlen O + Zlen S) mod 16)
      with ((Zlen O + Zlen S) / 16 * 16) by lia.
    apply Z.mod_mul. lia. }
  split; [lia|]. split; [lia|]. split; [exact Ht|].
  split; intro H.
  - replace (Zlen O) with ((Zlen O + (Zlen S + P)) - (Zlen S + P)) by lia.
    rewrite Zminus_mod, Ht, H. reflexivity.
  - replace (Zlen S + P) with ((Zlen O + (Zlen S + P)) - Zlen O) by lia.
    rewrite Zminus_mod, Ht, H. reflexivity.
Qed.

(** ** C3: the range of the checksum, on the accumulated buffer *)

(** C3: the stored checksum is [crc32] of the buffer from offset 32 to its
    end just after the metadata-header template was appended; with the
    32-byte header this range is the four padded sections followed by the
    template. The packed record and the footer come after that buffer. *)
Theorem crc_over_buffer_after_template (hdr ub mh mf k r rd : bytes) :
  List.length hdr = 32%nat ->
  let '(final_data, lens) := sections hdr ub mh k r rd in
  crc32_checksum (metadata_of final_data lens) = crc32 (skipn 32 final_data) /\
  (exists pR pK pU pS,
     all_zero pR /\ all_zero pK /\ all_zero pU /\ all_zero pS /\
     final_data = hdr ++ (r ++ pR) ++ (k ++ pK) ++ (ub ++ pU) ++ (rd ++ pS) ++ mh /\
     crc32_checksum (metadata_of final_data lens) =
       crc32 ((r ++ pR) ++ (k ++ pK) ++ (ub ++ pU) ++ (rd ++ pS) ++ mh)) /\
  (forall img, build_image hdr ub mh mf k r rd = Some img ->
   exists packed, pack_metadata (metadata_of final_data lens) = Some packed /\
                  img = final_data ++ packed ++ mf).
Proof.
  intro H32.
  pose proof (build_image_Some hdr ub mh mf k r rd) as B.
  destruct (sections_shape hdr ub mh k r rd) as (pR & pK & pU & pS & Z1 & Z2 & Z3 & Z4 & E).
  rewrite E in B |- *.
  assert (Hs : skipn 32 (hdr ++ (r ++ pR) ++ (k ++ pK) ++ (ub ++ pU) ++ (rd ++ pS) ++ mh)
               = (r ++ pR) ++ (k ++ pK) ++ (ub ++ pU) ++ (rd ++ pS) ++ mh).
  { rewrite <- H32. apply skipn_length_app. }
  split; [reflexivity|]. split.
  - exists pR, pK, pU, pS. repeat split; try assumption.
    cbn [metadata_of crc32_checksum]. rewrite Hs. reflexivity.
  - exact B.
Qed.

Lemma crc_over_buffer_after_template_witness :
  List.length ex_header = 32%nat /\
  let '(final_data, lens) :=
    sections ex_header ex_uboot ex_mheader ex_kernel ex_rootfs ex_kernel in
  crc32_checksum (metadata_of final_data lens) = crc32 (skipn 32 final_data) /\
  (exists pR pK pU pS,
     all_zero pR /\ all_zero pK /\ all_zero pU /\ all_zero pS /\
     final_data = ex_header ++ (ex_rootfs ++ pR) ++ (ex_kernel ++ pK)
                  ++ (ex_uboot ++ pU) ++ (ex_kernel ++ pS) ++ ex_mheader /\
     crc32_checksum (metadata_of final_data lens) =
       crc32 ((ex_rootfs ++ pR) ++ (ex_kernel ++ pK) ++ (ex_uboot ++ pU)
              ++ (ex_kernel ++ pS) ++ ex_mheader)) /\
  (forall img, build_image ex_header ex_uboot ex_mheader ex_mfooter
                           ex_kernel ex_rootfs ex_kernel = Some img ->
   exists packed, pack_metadata (metadata_of final_data lens) = Some packed /\
                  img = final_data ++ packed ++ ex_mfooter).
Proof.
  split; [reflexivity|].
  apply (crc_over_buffer_after_template ex_header ex_uboot ex_mheader ex_mfooter
           ex_kernel ex_rootfs ex_kernel).
  reflexivity.
Defined.

(** ** C2: the range of the checksum, on the image *)

(** C2 (counterexample): the checksum is not the CRC32 of the four padded
    sections alone: on the example inputs, whose metadata-header template
    is the single byte 0x01, it differs from it. *)
Lemma crc_covers_metadata_header :
  let '(final_data, lens) :=
    sections ex_header ex_uboot ex_mheader ex_kernel ex_rootfs ex_kernel in
  crc32_checksum (metadata_of final_data lens) <>
  crc32 (firstn (List.length final_data - 32 - List.length ex_mheader)
                (skipn 32 final_data)).
Proof. vm_compute. discriminate. Qed.

(** C2 (amended): with the 32-byte header, the image is the header, a
    region, the 44-byte metadata block and the footer, where the region is
    the four padded sections followed by the metadata-header template, and
    the block's first word is the CRC32 of that region. *)
Theorem image_crc_range (hdr ub mh mf k r rd img : bytes) :
  List.length hdr = 32%nat ->
  build_image hdr ub mh mf k r rd = Some img ->
  exists region blk pR pK pU pS,
    all_zero pR /\ all_zero pK /\ all_zero pU /\ all_zero pS /\
    region = (r ++ pR) ++ (k ++ pK) ++ (ub ++ pU) ++ (rd ++ pS) ++ mh /\
    img = hdr ++ region ++ blk ++ mf /\
    List.length blk = 44%nat /\
    word 0 blk = crc32 region.
Proof.
  intros H32 Hb.
  pose proof (build_image_Some hdr ub mh mf k r rd img Hb) as B.
  destruct (sections_shape hdr ub mh k r rd) as (pR & pK & pU & pS & Z1 & Z2 & Z3 & Z4 & E).
  rewrite E in B. destruct B as (packed & P & ->).
  apply pack_metadata_Some in P. destruct P as (_ & L & W).
  apply (f_equal (hd 0)) in W. cbn [map seq hd] in W.
  exists ((r ++ pR) ++ (k ++ pK) ++ (ub ++ pU) ++ (rd ++ pS) ++ mh), packed, pR, pK, pU, pS.
  repeat split; try assumption.
  - rewrite <- !app_assoc. reflexivity.
  - rewrite W. cbn [metadata_of crc32_checksum].
    rewrite <- H32, skipn_length_app. reflexivity.
Qed.

Lemma image_crc_range_witness :
  List.length ex_header = 32%nat /\
  build_image ex_header ex_uboot ex_mheader ex_mfooter
              ex_kernel ex_rootfs ex_kernel = Some ex_image /\
  exists region blk pR pK pU pS,
    all_zero pR /\ all_zero pK /\ all_zero pU /\ all_zero pS /\
    region = (ex_rootfs ++ pR) ++ (ex_kernel ++ pK) ++ (ex_uboot ++ pU)
             ++ (ex_kernel ++ pS) ++ ex_mheader /\
    ex_image = ex_header ++ region ++ blk ++ ex_mfooter /\
    List.length blk = 44%nat /\
    word 0 blk = crc32 region.
Proof.
  split; [reflexivity|]. split; [vm_compute; reflexivity|].
  apply (image_crc_range ex_header ex_uboot ex_mheader ex_mfooter
           ex_kernel ex_rootfs ex_kernel ex_image).
  - reflexivity.
  - vm_compute. reflexivity.
Defined.

(** ** C7: squashfs_size is the kernel's offset in the payload *)

(** C7: with the 32-byte header, the squashfs_size word of the metadata
    block in the image is the padded rootfs length, the padded rootfs
    fills the payload from its start up to that offset, and the kernel
    section begins at that offset from the start of the payload. *)
Theorem squashfs_size_kernel_offset (hdr ub mh mf k r rd img : bytes) :
  List.length hdr = 32%nat ->
  build_image hdr ub mh mf k r rd = Some img ->
  exists pR blk rest,
    all_zero pR /\
    img = fst (sections hdr ub mh k r rd) ++ blk ++ mf /\
    List.length blk = 44%nat /\
    word 2 blk = Zlen (r ++ pR) /\
    firstn (Z.to_nat (word 2 blk)) (skipn 32 img) = r ++ pR /\
    skipn (32 + Z.to_nat (word 2 blk)) img = k ++ rest.
Proof.
  intros H32 Hb.
  pose proof (build_image_Some hdr ub mh mf k r rd img Hb) as B.
  destruct (sections_shape hdr ub mh k r rd) as (pR & pK & pU & pS & Z1 & Z2 & Z3 & Z4 & E).
  rewrite E in B |- *. destruct B as (packed & P & ->).
  apply pack_metadata_Some in P. destruct P as (_ & L & W).
  apply (f_equal (fun l => nth 2 l 0)) in W. cbn [map seq nth] in W.
  cbn [metadata_of squashfs_size] in W.
  assert (Hn : Z.to_nat (word 2 packed) = List.length (r ++ pR)).
  { rewrite W. unfold Zlen. apply Nat2Z.id. }
  exists pR, packed, (pK ++ ((ub ++ pU) ++ (rd ++ pS) ++ mh) ++ packed ++ mf).
  cbn [fst]. split; [exact Z1|]. split; [reflexivity|].
  split; [exact L|]. split; [exact W|]. rewrite Hn.
  match goal with
  | |- context [?i ++ packed ++ mf] =>
      replace (i ++ packed ++ mf) with
        (hdr ++ (r ++ pR) ++ k ++ pK ++ ((ub ++ pU) ++ (rd ++ pS) ++ mh) ++ packed ++ mf)
        by (rewrite <- !app_assoc; reflexivity)
  end.
  rewrite <- H32. split.
  - rewrite skipn_length_app. apply firstn_length_app.
  - apply skipn_length_app2.
Qed.

Lemma squashfs_size_kernel_offset_witness :
  List.length ex_header = 32%nat /\
  build_image ex_header ex_uboot ex_mheader ex_mfooter
              ex_kernel ex_rootfs ex_kernel = Some ex_image /\
  exists pR blk rest,
    all_zero pR /\
    ex_image = fst (sections ex_header ex_uboot ex_mheader ex_kernel ex_rootfs ex_kernel)
               ++ blk ++ ex_mfooter /\
    List.length blk = 44%nat /\
    word 2 blk = Zlen (ex_rootfs ++ pR) /\
    firstn (Z.to_nat (word 2 blk)) (skipn 32 ex_image) = ex_rootfs ++ pR /\
    skipn (32 + Z.to_nat (word 2 blk)) ex_image = ex_kernel ++ rest.
Proof.
  split; [reflexivity|]. split; [vm_compute; reflexivity|].
  apply (squashfs_size_kernel_offset ex_header ex_uboot ex_mheader ex_mfooter
           ex_kernel ex_rootfs ex_kernel ex_image).
  - reflexivity.
  - vm_compute. reflexivity.
Defined.

(** ** The runs of the script *)

Ltac split_run :=
  repeat (match goal with
          | |- context [match files ?w ?p with _ => _ end] =>
              destruct (files w p) eqn:?
          | |- context [match truthy ?x with _ => _ end] =>
              destruct (truthy x) eqn:?
          | |- context [match build_image ?a ?b ?c ?d ?e ?f ?g with _ => _ end] =>
              destruct (build_image a b c d e f g) eqn:?
          | |- context [match os_write ?w ?fs ?p ?d with _ => _ end] =>
              destruct (os_write w fs p d) eqn:?
          end; cbn -[build_image]).

Ltac use_truthy :=
  repeat match goal with H : truthy _ = _ |- _ => rewrite H; clear H end.

(** Closes [exists tl, (n <= 4) /\ (tl = [] \/ tl = [EArgError]) /\ trace]. *)
Ltac prefix_trace :=
  first
    [ exists []; split; [lia|]; split; [left; reflexivity|];
      rewrite <- ?app_assoc; reflexivity
    | exists [EArgError]; split; [lia|]; split; [right; reflexivity|];
      rewrite <- ?app_assoc; reflexivity ].

(** Every run either raises before the write, leaving the files untouched
    and opening nothing for writing, or reads all its inputs, builds the
    image and then, as its last action, tries to write it to the output
    path, with the outcome the operating system gives. *)
Lemma run_script_cases (cl : cmdline) (w : world) :
  let '(res, w') := run_script cl w in
  exists evs, trace w' = trace w ++ evs /\
  ((exists e, res = inl e /\ files w' = files w /\
              (forall p, ~ In (EOpenWrite p) evs) /\ failure_reason cl w e)
   \/
   (exists args hdr ubd mhd mfd kd rfd rdd img,
      cmdline_args cl = Some args /\
      files w header_path = Some hdr /\ files w uboot_path = Some ubd /\
      files w metadata_header_path = Some mhd /\
      files w metadata_footer_path = Some mfd /\
      files w (kernel args) = Some kd /\ files w (rootfs args) = Some rfd /\
      secondary_source w args kd rdd /\
      build_image hdr ubd mhd mfd kd rfd rdd = Some img /\
      evs = map EOpenRead (static_paths ++ user_paths args)
            ++ [EOpenWrite (output args)] /\
      (res, files w') = write_effect (os_write w (files w) (output args) img)
                                     (files w) (output args) img)).
Proof.
  destruct cl as [[o|] [kp|] [rp|] rdo];
    unfold run_script, main, parse_args, load_user_data, load_binary,
      write_file, emit, bind, ret, raise; cbn -[build_image];
    split_run.
  all: (eexists; split; [rewrite <- ?app_assoc; reflexivity |]).
  all: first
    [ left; eexists; split; [reflexivity|]; split; [reflexivity|];
      split; [intros p Hp; cbn in Hp; intuition discriminate|];
      cbn;
      first [ assumption
            | split; [reflexivity | repeat constructor; cbn; congruence]
            | eexists; split; [reflexivity | unfold user_paths; cbn;
                                 use_truthy; cbn; repeat constructor; cbn; congruence]]
    | right; do 9 eexists;
      repeat split; unfold secondary_source, user_paths; cbn -[build_image];
      use_truthy; cbn -[build_image]; try eassumption;
      first [ reflexivity
            | match goal with H : os_write _ _ _ _ = _ |- _ => rewrite H end;
              reflexivity ] ].
Qed.

Lemma cmdline_args_ramdisk (cl : cmdline) (args : Args) :
  cmdline_args cl = Some args -> ramdisk args = cl_ramdisk cl.
Proof.
  unfold cmdline_args.
  destruct (cl_output cl), (cl_kernel cl), (cl_rootfs cl); try discriminate.
  intro H. injection H as <-. reflexivity.
Qed.

Lemma fs_write_same (fs : fsys) (p : string) (data : bytes) :
  fs_write fs p data p = Some data.
Proof. unfold fs_write. rewrite String.eqb_refl. reflexivity. Qed.

Lemma fs_write_other_path (fs : fsys) (p q : string) (data : bytes) :
  String.eqb q p = false -> fs_write fs p data q = fs q.
Proof. unfold fs_write. intros ->. reflexivity. Qed.

(** ** C5: the bytes written on success *)

(** C5: on a successful run the output file holds the header blob, the
    padded rootfs, kernel, u-boot and secondary-kernel sections, the
    metadata-header template, the packed metadata record and the
    metadata-footer template, in this order; without [--ramdisk] the
    secondary kernel's raw bytes are the kernel's. *)
Theorem output_layout (cl : cmdline) (w w' : world) :
  run_script cl w = (inr tt, w') ->
  exists args hdr ubd mhd mfd kd rfd rdd pR pK pU pS blk,
    cmdline_args cl = Some args /\
    files w header_path = Some hdr /\ files w uboot_path = Some ubd /\
    files w metadata_header_path = Some mhd /\
    files w metadata_footer_path = Some mfd /\
    files w (kernel args) = Some kd /\ files w (rootfs args) = Some rfd /\
    secondary_source w args kd rdd /\
    (cl_ramdisk cl = None -> rdd = kd) /\
    all_zero pR /\ all_zero pK /\ all_zero pU /\ all_zero pS /\
    pack_metadata
      (metadata_of (hdr ++ (rfd ++ pR) ++ (kd ++ pK) ++ (ubd ++ pU)
                        ++ (rdd ++ pS) ++ mhd)
                   (Zlen (rfd ++ pR), Zlen (kd ++ pK), Zlen (ubd ++ pU),
                    Zlen (rdd ++ pS))) = Some blk /\
    files w' (output args) =
      Some (hdr ++ (rfd ++ pR) ++ (kd ++ pK) ++ (ubd ++ pU) ++ (rdd ++ pS)
                ++ mhd ++ blk ++ mfd).
Proof.
  intro Hrun.
  pose proof (run_script_cases cl w) as C. rewrite Hrun in C.
  destruct C as (evs & _ & [(e & He & _) | C]); [discriminate|].
  destruct C as (args & hdr & ubd & mhd & mfd & kd & rfd & rdd & img &
                 A & H1 & H2 & H3 & H4 & H5 & H6 & Sec & B & _ & Wr).
  assert (W' : files w' = fs_write (files w) (output args) img).
  { unfold write_effect in Wr.
    destruct (os_write w (files w) (output args) img); congruence. }
  pose proof (build_image_Some hdr ubd mhd mfd kd rfd rdd img B) as BI.
  destruct (sections_shape hdr ubd mhd kd rfd rdd)
    as (pR & pK & pU & pS & Z1 & Z2 & Z3 & Z4 & E).
  rewrite E in BI. destruct BI as (blk & P & ->).
  exists args, hdr, ubd, mhd, mfd, kd, rfd, rdd, pR, pK, pU, pS, blk.
  repeat split; try assumption.
  - intro Hn. unfold secondary_source in Sec.
    rewrite (cmdline_args_ramdisk cl args A), Hn in Sec. exact Sec.
  - rewrite W', fs_write_same, <- !app_assoc. reflexivity.
Qed.

Lemma output_layout_witness :
  run_script ex_cmdline ex_world = (inr tt, snd (run_script ex_cmdline ex_world)) /\
  exists args hdr ubd mhd mfd kd rfd rdd pR pK pU pS blk,
    cmdline_args ex_cmdline = Some args /\
    files ex_world header_path = Some hdr /\ files ex_world uboot_path = Some ubd /\
    files ex_world metadata_header_path = Some mhd /\
    files ex_world metadata_footer_path = Some mfd /\
    files ex_world (kernel args) = Some kd /\ files ex_world (rootfs args) = Some rfd /\
    secondary_source ex_world args kd rdd /\
    (cl_ramdisk ex_cmdline = None -> rdd = kd) /\
    all_zero pR /\ all_zero pK /\ all_zero pU /\ all_zero pS /\
    pack_metadata
      (metadata_of (hdr ++ (rfd ++ pR) ++ (kd ++ pK) ++ (ubd ++ pU)
                        ++ (rdd ++ pS) ++ mhd)
                   (Zlen (rfd ++ pR), Zlen (kd ++ pK), Zlen (ubd ++ pU),
                    Zlen (rdd ++ pS))) = Some blk /\
    files (snd (run_script ex_cmdline ex_world)) (output args) =
      Some (hdr ++ (rfd ++ pR) ++ (kd ++ pK) ++ (ubd ++ pU) ++ (rdd ++ pS)
                ++ mhd ++ blk ++ mfd).
Proof.
  split; [vm_compute; reflexivity|].
  apply (output_layout ex_cmdline ex_world (snd (run_script ex_cmdline ex_world))).
  vm_compute. reflexivity.
Defined.

(** ** C8: a missing input leaves the output untouched *)

(** C8: if an input the run reads (a static blob, or with parsed
    arguments the kernel, rootfs or ramdisk image) cannot be opened, the
    run raises [FileNotFoundError] on such a path, the files are unchanged
    and nothing is opened for writing. In every run, the output path is
    opened for writing only as the last action, after all inputs were read
    and the image was built; the result and the files are then those of
    that write, which the operating system may let fail. *)
Theorem missing_input_no_output (cl : cmdline) (w : world) :
  let '(res, w') := run_script cl w in
  (missing_input cl w ->
     (exists p, res = inl (FileNotFoundError p) /\ files w p = None) /\
     files w' = files w /\
     exists evs, trace w' = trace w ++ evs /\ forall p, ~ In (EOpenWrite p) evs) /\
  (forall evs p, trace w' = trace w ++ evs -> In (EOpenWrite p) evs ->
     exists args hdr ubd mhd mfd kd rfd rdd img,
       cmdline_args cl = Some args /\ p = output args /\
       files w header_path = Some hdr /\ files w uboot_path = Some ubd /\
       files w metadata_header_path = Some mhd /\
       files w metadata_footer_path = Some mfd /\
       files w (kernel args) = Some kd /\ files w (rootfs args) = Some rfd /\
       secondary_source w args kd rdd /\
       build_image hdr ubd mhd mfd kd rfd rdd = Some img /\
       evs = map EOpenRead (static_paths ++ user_paths args) ++ [EOpenWrite p] /\
       (res, files w') = write_effect (os_write w (files w) p img) (files w) p img).
Proof.
  pose proof (run_script_cases cl w) as C.
  destruct (run_script cl w) as [res w'].
  destruct C as (evs & Tr & [(e & -> & Fs & NoW & Why) | S]).
  - split.
    + intro Miss. split; [|split; [exact Fs | eauto]].
      destruct e as [p| | |p]; cbn [failure_reason] in Why.
      * eauto.
      * exfalso. destruct Why as [A Sp].
        destruct Miss as [(p & Ip & Np) | (args & A' & _)]; [|congruence].
        rewrite Forall_forall in Sp. exact (Sp p Ip Np).
      * exfalso. destruct Why as (args & A & Sp). rewrite Forall_forall in Sp.
        destruct Miss as [(p & Ip & Np) | (args' & A' & p & Ip & Np)].
        -- apply (Sp p); [apply in_or_app; left; exact Ip | exact Np].
        -- rewrite A in A'. injection A' as <-.
           apply (Sp p); [apply in_or_app; right; exact Ip | exact Np].
      * exfalso. destruct Why as (args & A & _ & Sp). rewrite Forall_forall in Sp.
        destruct Miss as [(q & Iq & Nq) | (args' & A' & q & Iq & Nq)].
        -- apply (Sp q); [apply in_or_app; left; exact Iq | exact Nq].
        -- rewrite A in A'. injection A' as <-.
           apply (Sp q); [apply in_or_app; right; exact Iq | exact Nq].
    + intros evs' p Tr' Iw. rewrite Tr in Tr'. apply app_inv_head in Tr'.
      subst evs'. exfalso. exact (NoW p Iw).
  - destruct S as (args & hdr & ubd & mhd & mfd & kd & rfd & rdd & img &
                   A & H1 & H2 & H3 & H4 & H5 & H6 & Sec & B & Ev & W').
    split.
    + intro Miss. exfalso.
      destruct Miss as [(p & Ip & Np) | (args' & A' & p & Ip & Np)].
      * cbn in Ip. intuition congruence.
      * rewrite A in A'. injection A' as <-.
        unfold user_paths in Ip. unfold secondary_source in Sec.
        destruct (truthy (ramdisk args)); cbn in Ip; intuition congruence.
    + intros evs' p Tr' Iw. rewrite Tr in Tr'. apply app_inv_head in Tr'.
      subst evs'. rewrite Ev in Iw.
      assert (Hp : p = output args).
      { apply in_app_or in Iw. destruct Iw as [Iw | Iw].
        - apply in_map_iff in Iw. destruct Iw as (x & Ex & _). discriminate.
        - cbn in Iw. destruct Iw as [Iw | []]. congruence. }
      subst p.
      exists args, hdr, ubd, mhd, mfd, kd, rfd, rdd, img.
      repeat split; assumption.
Qed.

(** ** C9: a missing option *)

(** C9 (counterexample): with [--kernel] absent, the four static blobs are
    opened before argparse reports the missing argument. *)
Lemma static_blobs_read_before_arg_error :
  fst (run_script ex_cmdline_no_kernel ex_world) = inl ArgumentError /\
  trace (snd (run_script ex_cmdline_no_kernel ex_world)) =
    [EOpenRead header_path; EOpenRead uboot_path;
     EOpenRead metadata_header_path; EOpenRead metadata_footer_path;
     EArgError].
Proof. split; vm_compute; reflexivity. Qed.

(** C9 (amended): when [--kernel] or [--rootfs] is absent, the run raises
    and changes no file; its only actions are opening a prefix of the four
    static blobs (loaded at module import, before argument parsing) and,
    last, argparse's report; when the four blobs are readable, the run
    raises [ArgumentError] right after reading them. *)
Theorem missing_option_no_user_io (cl : cmdline) (w : world) :
  cl_kernel cl = None \/ cl_rootfs cl = None ->
  let '(res, w') := run_script cl w in
  files w' = files w /\
  (exists e, res = inl e) /\
  (exists n tl, (n <= 4)%nat /\ (tl = [] \/ tl = [EArgError]) /\
     trace w' = trace w ++ map EOpenRead (firstn n static_paths) ++ tl) /\
  (Forall (fun p => files w p <> None) static_paths ->
     res = inl ArgumentError /\
     trace w' = trace w ++ map EOpenRead static_paths ++ [EArgError]).
Proof.
  destruct cl as [o k r rd]; cbn [cl_kernel cl_rootfs]; intros [-> | ->];
    destruct o; try destruct k; try destruct r;
    unfold run_script, main, parse_args, load_user_data, load_binary,
      write_file, emit, bind, ret, raise; cbn -[build_image];
    split_run;
    (split; [reflexivity|]); (split; [eexists; reflexivity|]);
    (split;
     [ first [ exists 0%nat; prefix_trace | exists 1%nat; prefix_trace
             | exists 2%nat; prefix_trace | exists 3%nat; prefix_trace
             | exists 4%nat; prefix_trace ] |]);
    intro F;
    first [ split; [reflexivity | rewrite <- !app_assoc; reflexivity]
          | exfalso; unfold static_paths in F;
            repeat match goal with H : Forall _ (_ :: _) |- _ => inversion_clear H end;
            congruence ].
Qed.

Lemma missing_option_no_user_io_witness :
  (cl_kernel ex_cmdline_no_kernel = None \/ cl_rootfs ex_cmdline_no_kernel = None) /\
  let '(res, w') := run_script ex_cmdline_no_kernel ex_world in
  files w' = files ex_world /\
  (exists e, res = inl e) /\
  (exists n tl, (n <= 4)%nat /\ (tl = [] \/ tl = [EArgError]) /\
     trace w' = trace ex_world ++ map EOpenRead (firstn n static_paths) ++ tl) /\
  (Forall (fun p => files ex_world p <> None) static_paths ->
     res = inl ArgumentError /\
     trace w' = trace ex_world ++ map EOpenRead static_paths ++ [EArgError]).
Proof.
  split; [left; reflexivity|].
  apply (missing_option_no_user_io ex_cmdline_no_kernel ex_world).
  left. reflexivity.
Defined.

(** * Further properties of the script *)

(** ** [int.to_bytes(4, "little")] and its inverse *)

Lemma Z_of_byte_inj (a b : Byte.byte) : Z_of_byte a = Z_of_byte b -> a = b.
Proof.
  unfold Z_of_byte. intro H. apply N2Z.inj in H.
  assert (Some a = Some b) as E by (rewrite <- (Byte.of_to_N a), <- (Byte.of_to_N b), H; reflexivity).
  congruence.
Qed.

Lemma Z_of_byte_range (b : Byte.byte) : 0 <= Z_of_byte b < 256.
Proof. unfold Z_of_byte. pose proof (Byte.to_N_bounded b). lia. Qed.

Lemma le_value_range (bs : bytes) :
  0 <= le_value bs < 2 ^ (8 * Z.of_nat (List.length bs)).
Proof.
  induction bs as [|b bs IH]; cbn [le_value List.length]; [simpl; lia|].
  pose proof (Z_of_byte_range b).
  replace (8 * Z.of_nat (S (List.length bs))) with (8 + 8 * Z.of_nat (List.length bs)) by lia.
  rewrite Z.pow_add_r by lia. change (2 ^ 8) with 256. nia.
Qed.

Lemma le_value_inj (bs1 bs2 : bytes) :
  List.length bs1 = List.length bs2 -> le_value bs1 = le_value bs2 -> bs1 = bs2.
Proof.
  revert bs2; induction bs1 as [|a bs1 IH]; intros [|b bs2] L V; try discriminate; auto.
  cbn [le_value List.length] in *. injection L as L.
  pose proof (Z_of_byte_range a). pose proof (Z_of_byte_range b).
  pose proof (le_value_range bs1). pose proof (le_value_range bs2).
  assert (Hv : le_value bs1 = le_value bs2) by lia.
  assert (Ha : Z_of_byte a = Z_of_byte b) by lia.
  f_equal; [apply Z_of_byte_inj; exact Ha | apply IH; assumption].
Qed.

(** [to_bytes(len, "little")] succeeds exactly on [0 <= n < 2^(8 len)],
    and then its result is the unique [len]-byte string whose little-endian
    value is [n]. *)
Theorem to_bytes_le_roundtrip (len : nat) (n : Z) (bs : bytes) :
  to_bytes_le len n = Some bs <->
  (0 <= n < 2 ^ (8 * Z.of_nat len) /\ List.length bs = len /\ le_value bs = n).
Proof.
  unfold to_bytes_le.
  destruct (0 <=? n) eqn:E1, (n <? 2 ^ (8 * Z.of_nat len)) eqn:E2; cbn [andb];
    rewrite ?Z.leb_le, ?Z.leb_gt, ?Z.ltb_lt, ?Z.ltb_ge in *.
  - split.
    + intro H. assert (bs = le_digits len n) as -> by congruence.
      split; [lia|]. split; [apply le_digits_length | apply le_value_digits; lia].
    + intros (_ & L & V). f_equal. apply le_value_inj.
      * rewrite le_digits_length. auto.
      * rewrite le_value_digits by lia. auto.
  - split; [discriminate | lia].
  - split; [discriminate | lia].
  - split; [discriminate | lia].
Qed.

(** Two records that pack to the same bytes are equal: the metadata block
    determines the five fields. *)
Theorem pack_metadata_injective (md1 md2 : Metadata) (bs : bytes) :
  pack_metadata md1 = Some bs -> pack_metadata md2 = Some bs -> md1 = md2.
Proof.
  intros P1 P2.
  apply pack_metadata_Some in P1, P2.
  destruct P1 as (_ & _ & W1), P2 as (_ & _ & W2).
  rewrite W1 in W2. injection W2 as E0 E1 E2 E3 E8.
  destruct md1, md2; cbn in *. f_equal; lia.
Qed.

Lemma pack_metadata_injective_witness :
  pack_metadata ex_md = Some ex_md_bytes /\ ex_md = ex_md.
Proof.
  split; [vm_compute; reflexivity|].
  apply (pack_metadata_injective ex_md ex_md ex_md_bytes); vm_compute; reflexivity.
Defined.

(** ** The range of [zlib.crc32] *)

Lemma lxor_lt_pow2 (a b n : Z) :
  0 < n -> 0 <= a < 2 ^ n -> 0 <= b < 2 ^ n -> 0 <= Z.lxor a b < 2 ^ n.
Proof.
  intros Hn Ha Hb.
  assert (H0 : 0 <= Z.lxor a b) by (apply Z.lxor_nonneg; lia).
  split; [exact H0|].
  destruct (Z.eq_dec (Z.lxor a b) 0) as [E|E]; [rewrite E; lia|].
  apply Z.log2_lt_pow2; [lia|].
  pose proof (Z.log2_lxor a b ltac:(lia) ltac:(lia)).
  assert (La : Z.log2 a < n).
  { destruct (Z.eq_dec a 0) as [->|]; [simpl; lia|]. apply Z.log2_lt_pow2; lia. }
  assert (Lb : Z.log2 b < n).
  { destruct (Z.eq_dec b 0) as [->|]; [simpl; lia|]. apply Z.log2_lt_pow2; lia. }
  lia.
Qed.

Lemma crc32_shift_range (k : nat) (c : Z) :
  0 <= c < 2 ^ 32 -> 0 <= crc32_shift k c < 2 ^ 32.
Proof.
  revert c; induction k as [|k IH]; intros c Hc; cbn [crc32_shift]; [exact Hc|].
  apply IH.
  assert (Hs : 0 <= Z.shiftr c 1 < 2 ^ 32).
  { rewrite Z.shiftr_div_pow2 by lia. split; [apply Z.div_pos; lia|].
    apply Z.div_lt_upper_bound; lia. }
  destruct (Z.testbit c 0); [|exact Hs].
  apply lxor_lt_pow2; [lia | exact Hs | unfold crc32_poly; lia].
Qed.

Lemma crc32_bounded (data : bytes) : 0 <= crc32 data < 2 ^ 32.
Proof.
  unfold crc32.
  assert (Hf : forall l c, 0 <= c < 2 ^ 32 -> 0 <= fold_left crc32_update l c < 2 ^ 32).
  { induction l as [|b l IH]; intros c Hc; cbn [fold_left]; [exact Hc|].
    apply IH. unfold crc32_update. apply crc32_shift_range.
    apply lxor_lt_pow2; [lia | exact Hc |].
    pose proof (Z_of_byte_range b). lia. }
  apply lxor_lt_pow2; [lia | apply Hf; unfold mask32; lia | unfold mask32; lia].
Qed.

(** [zlib.crc32] is an unsigned 32-bit value, for every input. *)
Theorem crc32_range (data : bytes) : 0 <= crc32 data < 2 ^ 32.
Proof. apply crc32_bounded. Qed.

(** ** When [main] raises [OverflowError] *)

Lemma Zlen_nonneg {A} (l : list A) : 0 <= Zlen l.
Proof. unfold Zlen. lia. Qed.

Lemma build_image_None_iff (hdr ub mh mf k r rd : bytes) :
  let '(_, (rl, kl, ul, dl)) := sections hdr ub mh k r rd in
  build_image hdr ub mh mf k r rd = None <->
  (2 ^ 32 <= rl \/ 2 ^ 32 <= kl \/ 2 ^ 32 <= ul \/ 2 ^ 32 <= dl + 40).
Proof.
  destruct (sections_shape hdr ub mh k r rd)
    as (pR & pK & pU & pS & _ & _ & _ & _ & E).
  unfold build_image. rewrite E. unfold obind.
  pose proof (pack_metadata_None
    (metadata_of (hdr ++ (r ++ pR) ++ (k ++ pK) ++ (ub ++ pU) ++ (rd ++ pS) ++ mh)
                 (Zlen (r ++ pR), Zlen (k ++ pK), Zlen (ub ++ pU), Zlen (rd ++ pS)))) as N.
  unfold fields_in_range, in_u32 in N. cbn [metadata_of crc32_checksum
    primary_kernel_size squashfs_size uboot_size backup_kernel_size] in N.
  pose proof (crc32_bounded (skipn 32 (hdr ++ (r ++ pR) ++ (k ++ pK) ++ (ub ++ pU)
                                       ++ (rd ++ pS) ++ mh))).
  pose proof (Zlen_nonneg (r ++ pR)). pose proof (Zlen_nonneg (k ++ pK)).
  pose proof (Zlen_nonneg (ub ++ pU)). pose proof (Zlen_nonneg (rd ++ pS)).
  destruct (pack_metadata _) eqn:P.
  - split; [discriminate|]. intro Hc.
    assert (Hn : Some b = None) by (apply N; lia). discriminate.
  - split; [intros _|reflexivity].
    destruct N as [N _]. specialize (N eq_refl).
    destruct (Z_lt_ge_dec (Zlen (r ++ pR)) (2 ^ 32)); [|lia].
    destruct (Z_lt_ge_dec (Zlen (k ++ pK)) (2 ^ 32)); [|lia].
    destruct (Z_lt_ge_dec (Zlen (ub ++ pU)) (2 ^ 32)); [|lia].
    destruct (Z_lt_ge_dec (Zlen (rd ++ pS) + 40) (2 ^ 32)); [|lia].
    exfalso. apply N. lia.
Qed.

(** [main] raises [OverflowError] (in [pack_metadata]) exactly when a
    padded section length reaches 2^32, or the padded secondary-kernel
    length plus 40 does; the checksum never overflows. *)
Theorem build_image_overflow_iff (hdr ub mh mf k r rd : bytes) :
  let '(_, (rl, kl, ul, dl)) := sections hdr ub mh k r rd in
  build_image hdr ub mh mf k r rd = None <->
  (2 ^ 32 <= rl \/ 2 ^ 32 <= kl \/ 2 ^ 32 <= ul \/ 2 ^ 32 <= dl + 40).
Proof. apply build_image_None_iff. Qed.

(** With raw sections below these sizes the image is always built. *)
Theorem build_image_fits (hdr ub mh mf k r rd : bytes) :
  Zlen r < 2 ^ 32 - 16 -> Zlen k < 2 ^ 32 - 16 -> Zlen ub < 2 ^ 32 - 16 ->
  Zlen rd < 2 ^ 32 - 56 ->
  exists img, build_image hdr ub mh mf k r rd = Some img.
Proof.
  intros Hr Hk Hu Hd.
  pose proof (build_image_None_iff hdr ub mh mf k r rd) as N.
  unfold sections, alignment in N.
  destruct (append_data_16_eq hdr r) as [P1 E1]. rewrite E1 in N.
  destruct (append_data_16_eq (hdr ++ r ++ repeat Byte.x00
              (Z.to_nat (16 - (Zlen hdr + Zlen r) mod 16))) k) as [P2 E2].
  rewrite E2 in N.
  match type of N with context [append_data ?o ub 16] =>
    destruct (append_data_16_eq o ub) as [P3 E3]; rewrite E3 in N end.
  match type of N with context [append_data ?o rd 16] =>
    destruct (append_data_16_eq o rd) as [P4 E4]; rewrite E4 in N end.
  cbv zeta in N.
  destruct (build_image hdr ub mh mf k r rd) as [img|]; [eauto|].
  exfalso. destruct N as [N _]. specialize (N eq_refl). lia.
Qed.

Lemma build_image_fits_witness :
  Zlen ex_rootfs < 2 ^ 32 - 16 /\ Zlen ex_kernel < 2 ^ 32 - 16 /\
  Zlen ex_uboot < 2 ^ 32 - 16 /\ Zlen ex_kernel < 2 ^ 32 - 56 /\
  exists img, build_image ex_header ex_uboot ex_mheader ex_mfooter
                          ex_kernel ex_rootfs ex_kernel = Some img.
Proof.
  split; [vm_compute; reflexivity|]. split; [vm_compute; reflexivity|].
  split; [vm_compute; reflexivity|]. split; [vm_compute; reflexivity|].
  apply build_image_fits; vm_compute; reflexivity.
Defined.

(** ** Alignment and placement of the sections *)

Lemma append_data_16_len (O S : bytes) :
  let '(O', n) := append_data O S 16 in
  Zlen O' = Zlen O + n /\ Zlen O' mod 16 = 0.
Proof.
  destruct (append_data_16_eq O S) as [HP E]. rewrite E.
  rewrite !Zlen_app, Zlen_repeat, Z2Nat.id by lia.
  split; [lia|].
  pose proof (Z.div_mod (Zlen O + Zlen S) 16 ltac:(lia)).
  replace (Zlen O + (Zlen S + (16 - (Zlen O + Zlen S) mod 16)))
    with (((Zlen O + Zlen S) / 16 + 1) * 16) by lia.
  apply Z.mod_mul. lia.
Qed.

Lemma mod16_sub (a b : Z) : a mod 16 = 0 -> (a + b) mod 16 = 0 -> b mod 16 = 0.
Proof.
  intros Ha Hab. replace b with ((a + b) - a) by lia.
  rewrite Zminus_mod, Ha, Hab. reflexivity.
Qed.

(** Whatever the header's length, the padded kernel, u-boot and
    secondary-kernel lengths are multiples of 16, the padded rootfs ends at
    a multiple of 16 from the start of the image, and the buffer before the
    metadata block is the header, the four padded lengths and the
    template. *)
Theorem sections_aligned (hdr ub mh k r rd : bytes) :
  let '(buf, (rl, kl, ul, dl)) := sections hdr ub mh k r rd in
  (Zlen hdr + rl) mod 16 = 0 /\ kl mod 16 = 0 /\ ul mod 16 = 0 /\
  dl mod 16 = 0 /\
  Zlen buf = Zlen hdr + rl + kl + ul + dl + Zlen mh.
Proof.
  unfold sections, alignment.
  pose proof (append_data_16_len hdr r) as A1.
  destruct (append_data hdr r 16) as [b1 rl].
  pose proof (append_data_16_len b1 k) as A2.
  destruct (append_data b1 k 16) as [b2 kl].
  pose proof (append_data_16_len b2 ub) as A3.
  destruct (append_data b2 ub 16) as [b3 ul].
  pose proof (append_data_16_len b3 rd) as A4.
  destruct (append_data b3 rd 16) as [b4 dl].
  destruct A1 as [L1 M1], A2 as [L2 M2], A3 as [L3 M3], A4 as [L4 M4].
  rewrite L1 in M1.
  split; [exact M1|].
  split; [apply (mod16_sub (Zlen b1)); [rewrite L1; exact M1 | rewrite <- L2; exact M2]|].
  split; [apply (mod16_sub (Zlen b2)); [exact M2 | rewrite <- L3; exact M3]|].
  split; [apply (mod16_sub (Zlen b3)); [exact M3 | rewrite <- L4; exact M4]|].
  rewrite Zlen_app. lia.
Qed.

Lemma skipn_add_app {A} (a l : list A) (n : nat) :
  skipn (List.length a + n) (a ++ l) = skipn n l.
Proof. induction a; simpl; auto. Qed.

(** Read from the metadata block alone, the sizes locate every part of the
    image: after the header come the raw rootfs, then at offset
    squashfs_size the raw kernel, then after primary_kernel_size more the
    raw u-boot, after uboot_size more the raw secondary kernel, and after
    backup_kernel_size (the stored word minus 40) more the template, the
    block itself and the footer. *)
Theorem metadata_locates_sections (hdr ub mh mf k r rd img : bytes) :
  build_image hdr ub mh mf k r rd = Some img ->
  exists blk,
    List.length blk = 44%nat /\
    (exists t, skipn (List.length hdr) img = r ++ t) /\
    (exists t, skipn (List.length hdr + Z.to_nat (word 2 blk)) img = k ++ t) /\
    (exists t, skipn (List.length hdr + Z.to_nat (word 2 blk)
                      + Z.to_nat (word 1 blk)) img = ub ++ t) /\
    (exists t, skipn (List.length hdr + Z.to_nat (word 2 blk)
                      + Z.to_nat (word 1 blk) + Z.to_nat (word 3 blk)) img = rd ++ t) /\
    skipn (List.length hdr + Z.to_nat (word 2 blk) + Z.to_nat (word 1 blk)
           + Z.to_nat (word 3 blk) + Z.to_nat (word 8 blk - 40)) img
      = mh ++ blk ++ mf.
Proof.
  intro Hb.
  pose proof (build_image_Some hdr ub mh mf k r rd img Hb) as B.
  destruct (sections_shape hdr ub mh k r rd)
    as (pR & pK & pU & pS & _ & _ & _ & _ & E).
  rewrite E in B. destruct B as (blk & P & ->).
  apply pack_metadata_Some in P. destruct P as (_ & L & W).
  cbn [map seq metadata_of crc32_checksum primary_kernel_size squashfs_size
       uboot_size backup_kernel_size] in W.
  injection W as _ W1 W2 W3 _ _ _ _ W8 _ _.
  exists blk. rewrite W1, W2, W3, W8.
  replace (Zlen (rd ++ pS) + 40 - 40) with (Zlen (rd ++ pS)) by lia.
  unfold Zlen. rewrite !Nat2Z.id, <- !Nat.add_assoc.
  set (RR := r ++ pR). set (KK := k ++ pK). set (UU := ub ++ pU). set (SS := rd ++ pS).
  replace ((hdr ++ RR ++ KK ++ UU ++ SS ++ mh) ++ blk ++ mf)
    with (hdr ++ RR ++ KK ++ UU ++ SS ++ mh ++ blk ++ mf)
    by (rewrite <- !app_assoc; reflexivity).
  split; [exact L|].
  split; [rewrite skipn_length_app; subst RR; rewrite <- app_assoc; eauto|].
  split; [rewrite skipn_add_app, skipn_length_app; subst KK;
          rewrite <- app_assoc; eauto|].
  split; [rewrite !skipn_add_app, skipn_length_app; subst UU;
          rewrite <- app_assoc; eauto|].
  split; [rewrite !skipn_add_app, skipn_length_app; subst SS;
          rewrite <- app_assoc; eauto|].
  rewrite !skipn_add_app, skipn_length_app. reflexivity.
Qed.

Lemma metadata_locates_sections_witness :
  build_image ex_header ex_uboot ex_mheader ex_mfooter
              ex_kernel ex_rootfs ex_kernel = Some ex_image /\
  exists blk,
    List.length blk = 44%nat /\
    (exists t, skipn (List.length ex_header) ex_image = ex_rootfs ++ t) /\
    (exists t, skipn (List.length ex_header + Z.to_nat (word 2 blk)) ex_image
               = ex_kernel ++ t) /\
    (exists t, skipn (List.length ex_header + Z.to_nat (word 2 blk)
                      + Z.to_nat (word 1 blk)) ex_image = ex_uboot ++ t) /\
    (exists t, skipn (List.length ex_header + Z.to_nat (word 2 blk)
                      + Z.to_nat (word 1 blk) + Z.to_nat (word 3 blk)) ex_image
               = ex_kernel ++ t) /\
    skipn (List.length ex_header + Z.to_nat (word 2 blk) + Z.to_nat (word 1 blk)
           + Z.to_nat (word 3 blk) + Z.to_nat (word 8 blk - 40)) ex_image
      = ex_mheader ++ blk ++ ex_mfooter.
Proof.
  split; [vm_compute; reflexivity|].
  apply metadata_locates_sections. vm_compute. reflexivity.
Defined.

(** ** Runs of the script *)

Lemma image_of_Some (w : world) (args : Args) (hdr ubd mhd mfd kd rfd rdd img : bytes) :
  files w header_path = Some hdr -> files w uboot_path = Some ubd ->
  files w metadata_header_path = Some mhd ->
  files w metadata_footer_path = Some mfd ->
  files w (kernel args) = Some kd -> files w (rootfs args) = Some rfd ->
  secondary_source w args kd rdd ->
  build_image hdr ubd mhd mfd kd rfd rdd = Some img ->
  image_of w args = Some img.
Proof.
  intros H1 H2 H3 H4 H5 H6 Sec B. unfold image_of.
  rewrite H1, H2, H3, H4, H5, H6. unfold secondary_source in Sec.
  destruct (truthy (ramdisk args)); [rewrite Sec | subst rdd]; exact B.
Qed.

(** Once the arguments parse, every input can be read and the image fits,
    the run reads the inputs in order, opens the output and ends as the
    write ends. *)
Lemma run_script_reaches_write (cl : cmdline) (w : world) (args : Args)
      (hdr ubd mhd mfd kd rfd rdd img : bytes) :
  cmdline_args cl = Some args ->
  files w header_path = Some hdr -> files w uboot_path = Some ubd ->
  files w metadata_header_path = Some mhd ->
  files w metadata_footer_path = Some mfd ->
  files w (kernel args) = Some kd -> files w (rootfs args) = Some rfd ->
  secondary_source w args kd rdd ->
  build_image hdr ubd mhd mfd kd rfd rdd = Some img ->
  let eff := write_effect (os_write w (files w) (output args) img)
                          (files w) (output args) img in
  run_script cl w =
    (fst eff, mkWorld (snd eff)
                      (trace w ++ map EOpenRead (static_paths ++ user_paths args)
                               ++ [EOpenWrite (output args)])
                      (os_write w)).
Proof.
  destruct cl as [[o|] [kp|] [rp|] rdo]; cbn [cmdline_args cl_output cl_kernel cl_rootfs];
    intro A; try discriminate.
  injection A as <-. cbn [kernel rootfs output ramdisk].
  unfold secondary_source; cbn [ramdisk].
  intros H1 H2 H3 H4 H5 H6 Sec B.
  unfold user_paths; cbn [ramdisk kernel rootfs output].
  destruct (truthy rdo) as [p|] eqn:T;
    unfold run_script, main, parse_args, load_user_data, load_binary,
      write_file, emit, bind, ret, raise; cbn -[build_image];
    rewrite H1; cbn -[build_image]; rewrite H2; cbn -[build_image];
    rewrite H3; cbn -[build_image]; rewrite H4; cbn -[build_image];
    rewrite H5; cbn -[build_image]; rewrite H6; cbn -[build_image];
    rewrite T; cbn -[build_image].
  - rewrite Sec. cbn -[build_image]. rewrite B. cbn -[fs_write].
    destruct (os_write w (files w) o img); cbn -[fs_write];
      rewrite <- !app_assoc; reflexivity.
  - subst rdd. rewrite B. cbn -[fs_write].
    destruct (os_write w (files w) o img); cbn -[fs_write];
      rewrite <- !app_assoc; reflexivity.
Qed.

(** When the arguments parse and every input can be read, but the write
    fails after [n] bytes (a full disk), the run raises [OSError] on the
    output path, and [open(..., "wb")] has left that file holding the first
    [n] bytes of the image; no other file changes. *)
Theorem run_script_write_fails (cl : cmdline) (w : world) (args : Args)
      (hdr ubd mhd mfd kd rfd rdd img : bytes) (n : nat) :
  cmdline_args cl = Some args ->
  files w header_path = Some hdr -> files w uboot_path = Some ubd ->
  files w metadata_header_path = Some mhd ->
  files w metadata_footer_path = Some mfd ->
  files w (kernel args) = Some kd -> files w (rootfs args) = Some rfd ->
  secondary_source w args kd rdd ->
  build_image hdr ubd mhd mfd kd rfd rdd = Some img ->
  os_write w (files w) (output args) img = WriteFails n ->
  fst (run_script cl w) = inl (OSError (output args)) /\
  files (snd (run_script cl w)) = fs_write (files w) (output args) (firstn n img).
Proof.
  intros A H1 H2 H3 H4 H5 H6 Sec B O.
  rewrite (run_script_reaches_write cl w args hdr ubd mhd mfd kd rfd rdd img
             A H1 H2 H3 H4 H5 H6 Sec B).
  cbn zeta. rewrite O. split; reflexivity.
Qed.

Lemma run_script_write_fails_witness :
  cmdline_args ex_cmdline = Some ex_args /\
  files ex_world_full header_path = Some ex_header /\
  files ex_world_full uboot_path = Some ex_uboot /\
  files ex_world_full metadata_header_path = Some ex_mheader /\
  files ex_world_full metadata_footer_path = Some ex_mfooter /\
  files ex_world_full (kernel ex_args) = Some ex_kernel /\
  files ex_world_full (rootfs ex_args) = Some ex_rootfs /\
  secondary_source ex_world_full ex_args ex_kernel ex_kernel /\
  build_image ex_header ex_uboot ex_mheader ex_mfooter
              ex_kernel ex_rootfs ex_kernel = Some ex_image /\
  os_write ex_world_full (files ex_world_full) (output ex_args) ex_image = WriteFails 100 /\
  fst (run_script ex_cmdline ex_world_full) = inl (OSError (output ex_args)) /\
  files (snd (run_script ex_cmdline ex_world_full)) =
    fs_write (files ex_world_full) (output ex_args) (firstn 100 ex_image).
Proof.
  do 10 (split; [vm_compute; reflexivity|]).
  apply (run_script_write_fails ex_cmdline ex_world_full ex_args ex_header ex_uboot
           ex_mheader ex_mfooter ex_kernel ex_rootfs ex_kernel ex_image 100);
    vm_compute; reflexivity.
Defined.

(** Conversely to the failure cases: when the arguments parse, every input
    can be read, the image fits and the operating system lets the write
    complete, the run succeeds, reading the inputs in order and then
    writing the image to the output path. *)
Theorem run_script_success (cl : cmdline) (w : world) (args : Args)
      (hdr ubd mhd mfd kd rfd rdd img : bytes) :
  cmdline_args cl = Some args ->
  files w header_path = Some hdr -> files w uboot_path = Some ubd ->
  files w metadata_header_path = Some mhd ->
  files w metadata_footer_path = Some mfd ->
  files w (kernel args) = Some kd -> files w (rootfs args) = Some rfd ->
  secondary_source w args kd rdd ->
  build_image hdr ubd mhd mfd kd rfd rdd = Some img ->
  os_write w (files w) (output args) img = WriteOk ->
  run_script cl w =
    (inr tt, mkWorld (fs_write (files w) (output args) img)
                     (trace w ++ map EOpenRead (static_paths ++ user_paths args)
                              ++ [EOpenWrite (output args)])
                     (os_write w)).
Proof.
  intros A H1 H2 H3 H4 H5 H6 Sec B O.
  rewrite (run_script_reaches_write cl w args hdr ubd mhd mfd kd rfd rdd img
             A H1 H2 H3 H4 H5 H6 Sec B).
  cbn zeta. rewrite O. reflexivity.
Qed.

Lemma run_script_success_witness :
  cmdline_args ex_cmdline = Some ex_args /\
  files ex_world header_path = Some ex_header /\
  files ex_world uboot_path = Some ex_uboot /\
  files ex_world metadata_header_path = Some ex_mheader /\
  files ex_world metadata_footer_path = Some ex_mfooter /\
  files ex_world (kernel ex_args) = Some ex_kernel /\
  files ex_world (rootfs ex_args) = Some ex_rootfs /\
  secondary_source ex_world ex_args ex_kernel ex_kernel /\
  build_image ex_header ex_uboot ex_mheader ex_mfooter
              ex_kernel ex_rootfs ex_kernel = Some ex_image /\
  os_write ex_world (files ex_world) (output ex_args) ex_image = WriteOk /\
  run_script ex_cmdline ex_world =
    (inr tt, mkWorld (fs_write (files ex_world) (output ex_args) ex_image)
                     (trace ex_world ++ map EOpenRead (static_paths ++ user_paths ex_args)
                              ++ [EOpenWrite (output ex_args)])
                     (os_write ex_world)).
Proof.
  do 10 (split; [vm_compute; reflexivity|]).
  apply (run_script_success ex_cmdline ex_world ex_args ex_header ex_uboot ex_mheader
           ex_mfooter ex_kernel ex_rootfs ex_kernel ex_image);
    vm_compute; reflexivity.
Defined.

(** No run changes any file but the output path. When it changes that
    one, the arguments parsed, every input was read and the output now
    holds a prefix of the image built from them (open truncates it, a
    failing write stops early), the whole image when the run succeeds. *)
Theorem run_only_writes_output (cl : cmdline) (w : world) (q : string) :
  let '(res, w') := run_script cl w in
  files w' q = files w q \/
  exists args img, cmdline_args cl = Some args /\ q = output args /\
    image_of w args = Some img /\
    (exists n, files w' q = Some (firstn n img)) /\
    (res = inr tt -> files w' q = Some img).
Proof.
  pose proof (run_script_cases cl w) as C.
  destruct (run_script cl w) as [res w'].
  destruct C as (evs & _ & [(e & _ & Fs & _) | S]).
  - left. rewrite Fs. reflexivity.
  - destruct S as (args & hdr & ubd & mhd & mfd & kd & rfd & rdd & img &
                   A & H1 & H2 & H3 & H4 & H5 & H6 & Sec & B & _ & Wr).
    pose proof (image_of_Some w args hdr ubd mhd mfd kd rfd rdd img
                  H1 H2 H3 H4 H5 H6 Sec B) as I.
    unfold write_effect in Wr.
    destruct (os_write w (files w) (output args) img) as [| |n];
      injection Wr as E1 E2; subst res.
    + destruct (String.eqb q (output args)) eqn:Eq.
      * apply String.eqb_eq in Eq. subst q. right. exists args, img.
        rewrite E2, fs_write_same.
        repeat split; auto. exists (List.length img). rewrite firstn_all. reflexivity.
      * left. rewrite E2. apply fs_write_other_path. exact Eq.
    + left. rewrite E2. reflexivity.
    + destruct (String.eqb q (output args)) eqn:Eq.
      * apply String.eqb_eq in Eq. subst q. right. exists args, img.
        rewrite E2, fs_write_same.
        repeat split; auto; [eauto | discriminate].
      * left. rewrite E2. apply fs_write_other_path. exact Eq.
Qed.




(** Whenever argparse rejects the command line (the output path, [--kernel]
    or [--rootfs] missing), the run writes nothing and opens no
    caller-supplied path: it reads at most the four static blobs, and when
    they are all readable it raises [ArgumentError] right after them. *)
Theorem parse_failure_no_user_io (cl : cmdline) (w : world) :
  cmdline_args cl = None ->
  let '(res, w') := run_script cl w in
  files w' = files w /\
  (exists e, res = inl e) /\
  (exists n tl, (n <= 4)%nat /\ (tl = [] \/ tl = [EArgError]) /\
     trace w' = trace w ++ map EOpenRead (firstn n static_paths) ++ tl) /\
  (Forall (fun p => files w p <> None) static_paths ->
     res = inl ArgumentError /\
     trace w' = trace w ++ map EOpenRead static_paths ++ [EArgError]).
Proof.
  destruct cl as [[o|] [k|] [r|] rd]; cbn [cmdline_args cl_output cl_kernel cl_rootfs];
    intro N; try discriminate;
    unfold run_script, main, parse_args, load_user_data, load_binary,
      write_file, emit, bind, ret, raise; cbn -[build_image];
    split_run;
    (split; [reflexivity|]); (split; [eexists; reflexivity|]);
    (split;
     [ first [ exists 0%nat; prefix_trace | exists 1%nat; prefix_trace
             | exists 2%nat; prefix_trace | exists 3%nat; prefix_trace
             | exists 4%nat; prefix_trace ] |]);
    intro F;
    first [ split; [reflexivity | rewrite <- !app_assoc; reflexivity]
          | exfalso; unfold static_paths in F;
            repeat match goal with H : Forall _ (_ :: _) |- _ => inversion_clear H end;
            congruence ].
Qed.

Lemma parse_failure_no_user_io_witness :
  cmdline_args ex_cmdline_no_output = None /\
  let '(res, w') := run_script ex_cmdline_no_output ex_world in
  files w' = files ex_world /\
  (exists e, res = inl e) /\
  (exists n tl, (n <= 4)%nat /\ (tl = [] \/ tl = [EArgError]) /\
     trace w' = trace ex_world ++ map EOpenRead (firstn n static_paths) ++ tl) /\
  (Forall (fun p => files ex_world p <> None) static_paths ->
     res = inl ArgumentError /\
     trace w' = trace ex_world ++ map EOpenRead static_paths ++ [EArgError]).
Proof.
  split; [vm_compute; reflexivity|].
  apply (parse_failure_no_user_io ex_cmdline_no_output ex_world).
  vm_compute; reflexivity.
Defined.
